(** * Test_Cpp20: the numeric pipeline of [main.cpp]

    A shallow embedding of the demonstration program: [format_vector],
    [get_even_numbers], [square_numbers], the constrained template [sum]
    and [main], followed by the properties the specification states
    about them.

    Integers.  The program computes on [int], which C++20 fixes to a
    two's complement representation; on the targets the program is
    built for it is 32 bits wide.  ISO C++ leaves signed overflow
    undefined.  The embedding gives [+] and [*] the wrap-around result
    of the two's complement machine operation, which is the behaviour
    the specification names for out-of-range results.  The predicates
    [squares_fit] and [totals_fit] are the side conditions under which
    no operation overflows; under them the results are the mathematical
    ones (lemmas [square_numbers_exact] and [sum_exact]), and the run of
    [main] satisfies them.

    Output.  Standard output is the text written so far, threaded
    through [main] by a state monad with the one operation [cout]. *)

From Stdlib Require Import ZArith List String Ascii Lia Bool.
From Stdlib Require Import DecimalString DecimalPos DecimalZ Sorted.
From stdpp Require Import list.

Local Open Scope Z_scope.

(** ** 32-bit signed integers *)

Module Int32.

Definition bits : Z := 32.
Definition modulus : Z := 2 ^ bits.
Definition half_modulus : Z := 2 ^ (bits - 1).
Definition min_signed : Z := - half_modulus.
Definition max_signed : Z := half_modulus - 1.

(** The values an [int] can hold. *)
Definition in_range (x : Z) : Prop := min_signed <= x <= max_signed.

Definition in_rangeb (x : Z) : bool :=
  (min_signed <=? x) && (x <=? max_signed).

(** The low 32 bits of [x], as an unsigned number. *)
Definition low_bits (x : Z) : Z := Z.land x (Z.ones bits).

(** The low 32 bits of [x] read as a signed value: bit 31 is the sign
    bit. *)
Definition wrap (x : Z) : Z :=
  let u := low_bits x in
  if Z.testbit u (bits - 1) then u - modulus else u.

Definition add (a b : Z) : Z := wrap (a + b).
Definition mul (a b : Z) : Z := wrap (a * b).

(** [a % b]: the remainder of the division that truncates toward zero,
    so the result has the sign of [a]. *)
Definition rem (a b : Z) : Z := Z.rem a b.

End Int32.

(** The type [int]; [std::vector<int>] is [list int]. *)
Abbreviation int := Z (only parsing).

(** ** The program *)

Local Open Scope string_scope.

(** The double quote character (code 34) and the line feed (code 10). *)
Definition dquote : string := String "034"%char EmptyString.
Definition newline : string := String "010"%char EmptyString.

(** One iteration of the loop of [format_vector]; the state is the
    string built so far and the flag [first]. *)
Definition format_vector_step (st : string * bool) (s : string) : string * bool :=
  let '(result, first) := st in
  let result := if negb first then result ++ ", " else result in
  (result ++ (dquote ++ s ++ dquote), false).

Fixpoint format_vector_loop (st : string * bool) (vec : list string) : string * bool :=
  match vec with
  | [] => st
  | s :: rest => format_vector_loop (format_vector_step st s) rest
  end.

Definition format_vector (vec : list string) : string :=
  let '(result, _) := format_vector_loop ("{", true) vec in
  result ++ "}".

(** The concept [Integral]: what [sum] uses of its element type, the
    conversion of the literal [0] and [+=]. *)
Class Integral (T : Type) : Type := {
  Integral_zero : T;
  Integral_add : T -> T -> T
}.

#[export] Instance Integral_int : Integral int := {
  Integral_zero := 0%Z;
  Integral_add := Int32.add
}.

(** The lambda of [get_even_numbers]: [n % 2 == 0]. *)
Definition is_even (n : int) : Prop := Int32.rem n 2 = 0%Z.

#[export] Instance is_even_dec (n : int) : Decision (is_even n).
Proof. unfold is_even. apply Z.eq_dec. Defined.

Definition get_even_numbers (numbers : list int) : list int :=
  filter is_even numbers.

Definition square_numbers (numbers : list int) : list int :=
  (fun n => Int32.mul n n) <$> numbers.

(** The loop of [sum], entered with [total]. *)
Fixpoint sum_loop {T : Type} `{Integral T} (total : T) (numbers : list T) : T :=
  match numbers with
  | [] => total
  | num :: rest => sum_loop (Integral_add total num) rest
  end.

Definition sum {T : Type} `{Integral T} (numbers : list T) : T :=
  sum_loop Integral_zero numbers.

(** [std::to_string(int)], and the field [{}] of [std::format] given an
    [int]: the decimal digits, after a minus sign for a negative
    number. *)
Definition to_string (n : int) : string :=
  NilZero.string_of_int (Z.to_int n).

(** [std::format(fmt, arg)] for a format string with one replacement
    field [{}] and no escaped brace: the field is replaced by [arg]. *)
Fixpoint format (fmt : string) (arg : string) : string :=
  match fmt with
  | EmptyString => EmptyString
  | String "{"%char (String "}"%char rest) => arg ++ rest
  | String c rest => String c (format rest arg)
  end.

(** A computation takes the text written to standard output so far and
    returns its result with the extended text. *)
Definition IO (A : Type) : Type := string -> A * string.

#[export] Instance IO_ret : MRet IO := fun A a out => (a, out).

#[export] Instance IO_bind : MBind IO :=
  fun A B k m out => let '(a, out') := m out in k a out'.

(** [std::cout << s]. *)
Definition cout (s : string) : IO unit := fun out => (tt, out ++ s).

Definition main : IO int :=
  let numbers : list int := [1; 2; 3; 4; 5; 6]%Z in
  let evens := get_even_numbers numbers in
  let squared_evens := square_numbers evens in
  let total : int := sum squared_evens in
  let original_str := to_string <$> numbers in
  let evens_str := to_string <$> evens in
  let squared_evens_str := to_string <$> squared_evens in
  cout (format ("Original numbers: {}" ++ newline) (format_vector original_str)) ;;
  cout (format ("Even numbers: {}" ++ newline) (format_vector evens_str)) ;;
  cout (format ("Squared even numbers: {}" ++ newline) (format_vector squared_evens_str)) ;;
  cout (format ("Sum of squared even numbers: {}" ++ newline) (to_string total)) ;;
  mret 0%Z.

(** ** Notions of the specification *)

(** The filter as the specification words it: the elements [n] with
    [n mod 2 == 0], in their original order. *)
Definition filterEven_spec (S : list Z) : list Z :=
  List.filter (fun n => (n mod 2 =? 0)%Z) S.

(** A label between double quotes. *)
Definition quoted (s : string) : string := dquote ++ s ++ dquote.

(** The rendering as the specification words it: an opening brace, the
    quoted labels joined by a comma and a space, a closing brace. *)
Definition render_spec (labels : list string) : string :=
  "{" ++ String.concat ", " (quoted <$> labels) ++ "}".

(** The sum of a list of mathematical integers. *)
Definition Zsum (l : list Z) : Z := foldr Z.add 0%Z l.

(** Every square fits in an [int]. *)
Definition squares_fit (numbers : list int) : Prop :=
  Forall (fun n => Int32.in_range (n * n)) numbers.

(** Every value [total] takes in the loop of [sum] fits in an [int]. *)
Fixpoint totals_fit (total : Z) (numbers : list int) : Prop :=
  match numbers with
  | [] => True
  | num :: rest =>
      Int32.in_range (total + num) /\ totals_fit (total + num) rest
  end.

(** The four lines [main] writes. *)
Definition line_original : string :=
  "Original numbers: {" ++ dquote ++ "1" ++ dquote ++ ", "
    ++ dquote ++ "2" ++ dquote ++ ", " ++ dquote ++ "3" ++ dquote ++ ", "
    ++ dquote ++ "4" ++ dquote ++ ", " ++ dquote ++ "5" ++ dquote ++ ", "
    ++ dquote ++ "6" ++ dquote ++ "}".

Definition line_evens : string :=
  "Even numbers: {" ++ dquote ++ "2" ++ dquote ++ ", "
    ++ dquote ++ "4" ++ dquote ++ ", " ++ dquote ++ "6" ++ dquote ++ "}".

Definition line_squared : string :=
  "Squared even numbers: {" ++ dquote ++ "4" ++ dquote ++ ", "
    ++ dquote ++ "16" ++ dquote ++ ", " ++ dquote ++ "36" ++ dquote ++ "}".

Definition line_sum : string := "Sum of squared even numbers: 56".

(** A text split at its line feeds; [cur] is the line being read. *)
Fixpoint lines_from (cur : string) (text : string) : list string :=
  match text with
  | EmptyString => if String.eqb cur EmptyString then [] else [cur]
  | String c rest =>
      if Ascii.eqb c "010"%char then cur :: lines_from EmptyString rest
      else lines_from (cur ++ String c EmptyString) rest
  end.

Definition lines (text : string) : list string := lines_from EmptyString text.

(** ** Reading a rendering back

    [format_vector] has no inverse in the program; the reader below
    serves to state which renderings determine their labels. *)

(** No character of [s] is a double quote. *)
Fixpoint quote_free (s : string) : bool :=
  match s with
  | EmptyString => true
  | String c rest => negb (Ascii.eqb c "034"%char) && quote_free rest
  end.

(** The number of characters of the labels of [vec]. *)
Fixpoint labels_length (vec : list string) : nat :=
  match vec with
  | [] => 0%nat
  | s :: rest => (String.length s + labels_length rest)%nat
  end.

(** What [format_vector] writes for the labels after the first: a
    comma, a space and the quoted label, for each. *)
Fixpoint tail_items (vec : list string) : string :=
  match vec with
  | [] => EmptyString
  | s :: rest => ", " ++ quoted s ++ tail_items rest
  end.

(** Where the reader stands in a rendering. *)
Inductive reader_state : Type :=
  | At_start
  | After_open
  | In_label (cur : string)
  | After_label
  | After_comma
  | After_space
  | At_end.

(** The reader: one pass over the text, [acc] holding the labels read
    so far; a label ends at the first double quote. *)
Fixpoint read_from (st : reader_state) (acc : list string) (text : string)
  : option (list string) :=
  match text with
  | EmptyString => match st with At_end => Some acc | _ => None end
  | String c rest =>
      match st with
      | At_start =>
          if Ascii.eqb c "{"%char then read_from After_open acc rest else None
      | After_open =>
          if Ascii.eqb c "034"%char then read_from (In_label EmptyString) acc rest
          else if Ascii.eqb c "}"%char then read_from At_end acc rest
          else None
      | In_label cur =>
          if Ascii.eqb c "034"%char then read_from After_label (acc ++ [cur])%list rest
          else read_from (In_label (cur ++ String c EmptyString)) acc rest
      | After_label =>
          if Ascii.eqb c ","%char then read_from After_comma acc rest
          else if Ascii.eqb c "}"%char then read_from At_end acc rest
          else None
      | After_comma =>
          if Ascii.eqb c " "%char then read_from After_space acc rest else None
      | After_space =>
          if Ascii.eqb c "034"%char then read_from (In_label EmptyString) acc rest
          else None
      | At_end => None
      end
  end.

Definition read_vector (text : string) : option (list string) :=
  read_from At_start [] text.

(** Reading a decimal numeral back. *)
Definition of_string (s : string) : option Z :=
  Z.of_int <$> NilZero.int_of_string s.

(** ** The definitions on some inputs *)

Example wrap_examples :
  Int32.wrap 2147483647 = 2147483647%Z
  /\ Int32.wrap 2147483648 = (-2147483648)%Z
  /\ Int32.wrap (-2147483649) = 2147483647%Z
  /\ Int32.mul 65536 65536 = 0%Z
  /\ Int32.mul 46341 46341 = (-2147479015)%Z
  /\ Int32.mul (-46340) (-46340) = 2147395600%Z.
Proof. repeat split; reflexivity. Qed.

Example to_string_examples :
  to_string 0 = "0" /\ to_string 36 = "36" /\ to_string (-15) = "-15"
  /\ to_string (-2147483648) = "-2147483648".
Proof. repeat split; reflexivity. Qed.

Example format_example : format "a{}b{}" "xy" = "axyb{}".
Proof. reflexivity. Qed.

(** ** Facts about the 32-bit arithmetic *)

Section Int32_facts.

Import Int32.

Local Open Scope Z_scope.

Lemma modulus_val : modulus = 4294967296.
Proof. reflexivity. Qed.

Lemma half_modulus_val : half_modulus = 2147483648.
Proof. reflexivity. Qed.

Lemma in_rangeb_spec (x : Z) : in_rangeb x = true <-> in_range x.
Proof. unfold in_rangeb, in_range. lia. Qed.

Lemma low_bits_mod (x : Z) : low_bits x = x mod modulus.
Proof. unfold low_bits, modulus. apply Z.land_ones. unfold bits. lia. Qed.

(** Bit 31 of a 32-bit unsigned number is set exactly from [2^31] on. *)
Lemma sign_bit (u : Z) :
  0 <= u < modulus -> Z.testbit u (bits - 1) = (half_modulus <=? u).
Proof.
  intros Hu. rewrite modulus_val in Hu.
  rewrite Z.testbit_eqb by (unfold bits; lia).
  change (2 ^ (bits - 1)) with 2147483648.
  rewrite half_modulus_val.
  destruct (Z.leb_spec 2147483648 u) as [Hle | Hlt].
  - assert (u / 2147483648 = 1) as -> by (Z.div_mod_to_equations; lia).
    reflexivity.
  - rewrite Z.div_small by lia. reflexivity.
Qed.

(** [wrap] by arithmetic: the representative of [x] modulo [2^32] in
    the signed range. *)
Lemma wrap_mod (x : Z) :
  wrap x = if half_modulus <=? x mod modulus
           then x mod modulus - modulus else x mod modulus.
Proof.
  unfold wrap. cbv zeta. rewrite low_bits_mod.
  rewrite sign_bit; [reflexivity |].
  apply Z.mod_pos_bound. rewrite modulus_val. lia.
Qed.

Lemma wrap_in_range (x : Z) : in_range (wrap x).
Proof.
  rewrite wrap_mod. unfold in_range, min_signed, max_signed.
  rewrite half_modulus_val, modulus_val.
  pose proof (Z.mod_pos_bound x 4294967296 ltac:(lia)).
  destruct (Z.leb_spec 2147483648 (x mod 4294967296)); lia.
Qed.

(** A value that fits is left as it is. *)
Lemma wrap_id (x : Z) : in_range x -> wrap x = x.
Proof.
  unfold in_range, min_signed, max_signed.
  rewrite wrap_mod, half_modulus_val, modulus_val. intros Hx.
  destruct (Z.leb_spec 2147483648 (x mod 4294967296));
    Z.div_mod_to_equations; lia.
Qed.

(** [wrap x] and [x] differ by a multiple of [2^32]. *)
Lemma wrap_congruent (x : Z) : exists k, wrap x = x + k * modulus.
Proof.
  rewrite wrap_mod, half_modulus_val, modulus_val.
  destruct (Z.leb_spec 2147483648 (x mod 4294967296)).
  - exists (- (x / 4294967296) - 1). Z.div_mod_to_equations. lia.
  - exists (- (x / 4294967296)). Z.div_mod_to_equations. lia.
Qed.

Lemma wrap_mod_modulus (x : Z) : wrap x mod modulus = x mod modulus.
Proof.
  destruct (wrap_congruent x) as [k ->].
  apply Z.mod_add. rewrite modulus_val. lia.
Qed.

(** Two numbers with the same residue have the same [wrap]. *)
Lemma wrap_ext (x y : Z) : x mod modulus = y mod modulus -> wrap x = wrap y.
Proof. intros Heq. rewrite !wrap_mod, Heq. reflexivity. Qed.

Lemma wrap_add_l (a b : Z) : wrap (wrap a + b) = wrap (a + b).
Proof.
  apply wrap_ext.
  rewrite Z.add_mod, wrap_mod_modulus, <- Z.add_mod;
    rewrite ?modulus_val; lia.
Qed.

Lemma wrap_add_r (a b : Z) : wrap (a + wrap b) = wrap (a + b).
Proof. rewrite Z.add_comm, wrap_add_l, Z.add_comm. reflexivity. Qed.

(** Wrap-around keeps the parity, the modulus being even. *)
Lemma wrap_even (x : Z) : Z.even (wrap x) = Z.even x.
Proof.
  destruct (wrap_congruent x) as [k ->].
  rewrite Z.even_add, Z.even_mul, modulus_val.
  change (Z.even 4294967296) with true.
  rewrite orb_true_r. destruct (Z.even x); reflexivity.
Qed.

Lemma add_in_range (a b : Z) : in_range (add a b).
Proof. apply wrap_in_range. Qed.

Lemma mul_in_range (a b : Z) : in_range (mul a b).
Proof. apply wrap_in_range. Qed.

Lemma add_exact (a b : Z) : in_range (a + b) -> add a b = a + b.
Proof. apply wrap_id. Qed.

Lemma mul_exact (a b : Z) : in_range (a * b) -> mul a b = a * b.
Proof. apply wrap_id. Qed.

(** A result that does not fit is changed by the wrap-around. *)
Lemma mul_overflow (a b : Z) : ~ in_range (a * b) -> mul a b <> a * b.
Proof. intros Hover Heq. apply Hover. rewrite <- Heq. apply mul_in_range. Qed.

Lemma int_add_assoc (a b c : Z) : add (add a b) c = add a (add b c).
Proof.
  unfold add. rewrite wrap_add_l, wrap_add_r, Z.add_assoc. reflexivity.
Qed.

Lemma int_add_comm (a b : Z) : add a b = add b a.
Proof. unfold add. rewrite Z.add_comm. reflexivity. Qed.

Lemma in_range_dec (x : Z) : in_range x \/ ~ in_range x.
Proof. unfold in_range. lia. Qed.

(** [n % 2 == 0] holds of the even numbers, whatever their sign. *)
Lemma rem_2_even (n : Z) : rem n 2 = 0 <-> Z.even n = true.
Proof.
  unfold rem. rewrite Z.rem_mod_eq_0 by lia.
  rewrite Zeven_bool_iff, Zeven_ex_iff. split.
  - intros Hm. exists (n / 2). Z.div_mod_to_equations. lia.
  - intros [k ->]. rewrite Z.mul_comm. apply Z.mod_mul. lia.
Qed.

Lemma rem_2_mod (n : Z) : rem n 2 = 0 <-> n mod 2 = 0.
Proof. unfold rem. apply Z.rem_mod_eq_0. lia. Qed.

End Int32_facts.

(** ** The parity filter *)

Section Filter.

Local Open Scope Z_scope.

Lemma is_even_mod (n : int) : is_even n <-> n mod 2 = 0.
Proof. apply rem_2_mod. Qed.

Lemma is_even_even (n : int) : is_even n <-> Z.even n = true.
Proof. apply rem_2_even. Qed.

Lemma get_even_numbers_cons (n : int) (rest : list int) :
  get_even_numbers (n :: rest) =
  if decide (is_even n) then n :: get_even_numbers rest
  else get_even_numbers rest.
Proof. reflexivity. Qed.

Lemma get_even_numbers_refines (S : list int) :
  get_even_numbers S = filterEven_spec S.
Proof.
  induction S as [| n rest IH]; [reflexivity |].
  rewrite get_even_numbers_cons, IH. simpl.
  destruct (decide (is_even n)) as [He | Ho]; rewrite is_even_mod in *.
  - rewrite (proj2 (Z.eqb_eq _ _) He). reflexivity.
  - rewrite (proj2 (Z.eqb_neq _ _) Ho). reflexivity.
Qed.

Lemma elem_of_get_even_numbers (S : list int) (n : int) :
  n ∈ get_even_numbers S <-> n ∈ S /\ n mod 2 = 0.
Proof.
  unfold get_even_numbers. rewrite list_elem_of_filter, is_even_mod. tauto.
Qed.

(** Squaring keeps the parity, also when the square wraps around. *)
Lemma is_even_square (n : int) : is_even (Int32.mul n n) <-> is_even n.
Proof.
  rewrite !is_even_even. unfold Int32.mul.
  rewrite wrap_even, Z.even_mul, orb_diag. reflexivity.
Qed.

End Filter.

(** ** Exact arithmetic *)

Section Exact.

Local Open Scope Z_scope.

Lemma Zsum_app (l k : list Z) : Zsum (l ++ k) = Zsum l + Zsum k.
Proof.
  unfold Zsum. induction l as [| x l IH]; simpl; [reflexivity | lia].
Qed.

(** Without overflow the squares are the mathematical ones. *)
Lemma square_numbers_exact (numbers : list int) :
  squares_fit numbers -> square_numbers numbers = (fun n => n * n) <$> numbers.
Proof.
  unfold squares_fit, square_numbers.
  induction 1 as [| n rest Hn _ IH]; [reflexivity |].
  rewrite !fmap_cons, IH, mul_exact by assumption. reflexivity.
Qed.

(** The loop of [sum] on [int] adds the elements to [total] modulo
    [2^32]. *)
Lemma sum_loop_wrap (numbers : list int) (total : int) :
  Int32.in_range total ->
  sum_loop total numbers = Int32.wrap (total + Zsum numbers).
Proof.
  revert total. induction numbers as [| num rest IH]; intros total Ht; simpl.
  - rewrite Z.add_0_r, wrap_id by assumption. reflexivity.
  - rewrite IH by apply add_in_range.
    unfold Int32.add. rewrite wrap_add_l. f_equal. unfold Zsum. lia.
Qed.

Lemma sum_wrap (numbers : list int) : sum numbers = Int32.wrap (Zsum numbers).
Proof.
  unfold sum. rewrite sum_loop_wrap; [reflexivity |].
  apply in_rangeb_spec. reflexivity.
Qed.

Lemma sum_in_range (numbers : list int) : Int32.in_range (sum numbers).
Proof. rewrite sum_wrap. apply wrap_in_range. Qed.

Lemma sum_loop_exact (numbers : list int) (total : int) :
  totals_fit total numbers -> sum_loop total numbers = total + Zsum numbers.
Proof.
  revert total. induction numbers as [| num rest IH]; intros total Hfit; simpl.
  - lia.
  - destruct Hfit as [Hnum Hrest]. simpl.
    rewrite add_exact by assumption. rewrite IH by assumption.
    unfold Zsum. lia.
Qed.

(** Without overflow [sum] is the mathematical sum. *)
Lemma sum_exact (numbers : list int) :
  totals_fit 0 numbers -> sum numbers = Zsum numbers.
Proof.
  intros Hfit. unfold sum. rewrite sum_loop_exact by assumption. reflexivity.
Qed.

(** The run of [main] stays in range: no square and no partial sum of
    the demonstration sequence overflows. *)
Lemma main_squares_fit : squares_fit (get_even_numbers [1; 2; 3; 4; 5; 6]).
Proof.
  change (get_even_numbers [1; 2; 3; 4; 5; 6]) with [2; 4; 6].
  unfold squares_fit. repeat constructor; apply in_rangeb_spec; reflexivity.
Qed.

Lemma main_totals_fit :
  totals_fit 0 (square_numbers (get_even_numbers [1; 2; 3; 4; 5; 6])).
Proof.
  change (square_numbers (get_even_numbers [1; 2; 3; 4; 5; 6])) with [4; 16; 36].
  simpl. repeat split; apply in_rangeb_spec; reflexivity.
Qed.

End Exact.

(** ** The loop of [sum] *)

Section Sum_loop.

Context {T : Type} `{Integral T}.

Lemma sum_loop_fold_left (numbers : list T) (total : T) :
  sum_loop total numbers = fold_left Integral_add numbers total.
Proof.
  revert total. induction numbers as [| num rest IH]; intros total; simpl;
    [reflexivity | apply IH].
Qed.

Lemma sum_loop_app (l k : list T) (total : T) :
  sum_loop total (l ++ k) = sum_loop (sum_loop total l) k.
Proof.
  revert total. induction l as [| x l IH]; intros total; simpl;
    [reflexivity | apply IH].
Qed.

End Sum_loop.

(** ** Rendering *)

Section Render.

Local Open Scope string_scope.

Lemma string_app_assoc (a b c : string) : (a ++ b) ++ c = a ++ (b ++ c).
Proof.
  induction a as [| ch a IH]; simpl; [reflexivity | rewrite IH; reflexivity].
Qed.

Lemma concat_cons_cons (sep x y : string) (l : list string) :
  String.concat sep (x :: y :: l) = x ++ sep ++ String.concat sep (y :: l).
Proof. reflexivity. Qed.

(** After the first label the loop appends a separator and the quoted
    label for each further one. *)
Lemma format_vector_loop_rest (vec : list string) (r s : string) :
  format_vector_loop (r ++ quoted s, false) vec =
  (r ++ String.concat ", " (quoted <$> (s :: vec)), false).
Proof.
  revert r s. induction vec as [| t rest IH]; intros r s.
  - reflexivity.
  - change (format_vector_loop (r ++ quoted s, false) (t :: rest))
      with (format_vector_loop (((r ++ quoted s) ++ ", ") ++ quoted t, false) rest).
    rewrite IH. rewrite !fmap_cons, concat_cons_cons.
    rewrite <- !fmap_cons, !string_app_assoc. reflexivity.
Qed.

Lemma format_vector_refines (vec : list string) :
  format_vector vec = render_spec vec.
Proof.
  destruct vec as [| s rest]; [reflexivity |].
  unfold format_vector, render_spec.
  change (format_vector_loop ("{", true) (s :: rest))
    with (format_vector_loop ("{" ++ quoted s, false) rest).
  rewrite format_vector_loop_rest, string_app_assoc. reflexivity.
Qed.

(** Quoting each label and joining with a comma and a space is, for a
    list that is not empty, joining the bare labels with quote, comma,
    space, quote and putting the whole between quotes. *)
Lemma concat_quoted (s : string) (rest : list string) :
  String.concat ", " (quoted <$> (s :: rest)) =
  dquote ++ String.concat (dquote ++ ", " ++ dquote) (s :: rest) ++ dquote.
Proof.
  revert s. induction rest as [| t rest IH]; intros s; [reflexivity |].
  rewrite fmap_cons, fmap_cons, concat_cons_cons, <- fmap_cons, IH.
  rewrite concat_cons_cons. unfold quoted.
  rewrite !string_app_assoc. reflexivity.
Qed.

End Render.

(** ** The entry point *)

Section Main.

Local Open Scope string_scope.

Lemma cout_then {A : Type} (s : string) (k : IO A) (out : string) :
  (cout s ;; k) out = k (out ++ s).
Proof. reflexivity. Qed.

(** [main] appends its four lines to what was written before and
    returns [0]. *)
Lemma main_appends (out : string) :
  main out =
  (0%Z, out ++ line_original ++ newline ++ line_evens ++ newline
            ++ line_squared ++ newline ++ line_sum ++ newline).
Proof.
  unfold main. cbv zeta. rewrite !cout_then.
  unfold mret, IO_ret. rewrite !string_app_assoc.
  do 2 f_equal.
Qed.

End Main.

(** ** The properties of the specification *)

(** C1. Run on its fixed sequence [1; 2; 3; 4; 5; 6], with nothing
    written before, [main] writes four lines, each ended by a line
    feed, in this order: the original numbers, the even numbers, the
    squared even numbers, each as a braced list of quoted labels
    separated by a comma and a space, and the sum [56]. *)
Theorem main_output :
  snd (main EmptyString)
  = ("Original numbers: {" ++ dquote ++ "1" ++ dquote ++ ", "
       ++ dquote ++ "2" ++ dquote ++ ", " ++ dquote ++ "3" ++ dquote ++ ", "
       ++ dquote ++ "4" ++ dquote ++ ", " ++ dquote ++ "5" ++ dquote ++ ", "
       ++ dquote ++ "6" ++ dquote ++ "}" ++ newline
     ++ "Even numbers: {" ++ dquote ++ "2" ++ dquote ++ ", "
       ++ dquote ++ "4" ++ dquote ++ ", " ++ dquote ++ "6" ++ dquote ++ "}" ++ newline
     ++ "Squared even numbers: {" ++ dquote ++ "4" ++ dquote ++ ", "
       ++ dquote ++ "16" ++ dquote ++ ", " ++ dquote ++ "36" ++ dquote ++ "}" ++ newline
     ++ "Sum of squared even numbers: 56" ++ newline)%string
  /\ lines (snd (main EmptyString))
     = [line_original; line_evens; line_squared; line_sum]
  /\ get_even_numbers [1; 2; 3; 4; 5; 6]%Z = [2; 4; 6]%Z
  /\ square_numbers [2; 4; 6]%Z = [4; 16; 36]%Z
  /\ sum [4; 16; 36]%Z = 56%Z.
Proof.
  split; [rewrite main_appends; reflexivity |].
  split; [rewrite main_appends; reflexivity |].
  repeat split; reflexivity.
Qed.

(** C2. For every integer sequence, empty or not, [get_even_numbers]
    keeps exactly the elements [n] with [n mod 2 = 0], zero and the
    negative even numbers among them, and its result is a subsequence of
    the input in the original relative order: it is the filter the
    specification describes, every element of the result is divisible
    by 2, and an element is in the result exactly when it is an even
    element of the input. *)
Theorem get_even_numbers_spec (S : list int) :
  get_even_numbers S = filterEven_spec S
  /\ get_even_numbers S `sublist_of` S
  /\ Forall (fun n => (n mod 2 = 0)%Z) (get_even_numbers S)
  /\ (forall n, n ∈ get_even_numbers S <-> n ∈ S /\ (n mod 2 = 0)%Z)
  /\ get_even_numbers [] = []
  /\ get_even_numbers [0; -1; -2; 3; -4; 7; 8]%Z = [0; -2; -4; 8]%Z.
Proof.
  split; [apply get_even_numbers_refines |].
  split; [apply sublist_filter |].
  split.
  - apply Forall_forall. intros n Hn.
    apply elem_of_get_even_numbers in Hn. tauto.
  - split; [apply elem_of_get_even_numbers |].
    split; reflexivity.
Qed.

(** C3. For every integer sequence, [square_numbers] returns a sequence
    of the same length whose element at each position is the product
    [n * n], in [int], of the element [n] of the input at that position;
    it is the mathematical square unless that does not fit in an
    [int]. *)
Theorem square_numbers_spec (S : list int) :
  length (square_numbers S) = length S
  /\ (forall i : nat,
        square_numbers S !! i = (fun n => Int32.mul n n) <$> (S !! i))
  /\ Forall2 (fun n m => m = Int32.mul n n
                         /\ (m = (n * n)%Z \/ ~ Int32.in_range (n * n)))
             S (square_numbers S).
Proof.
  unfold square_numbers. split; [apply length_fmap |].
  split; [intros i; apply list_lookup_fmap |].
  induction S as [| n rest IH]; constructor; [| exact IH].
  split; [reflexivity |].
  destruct (in_range_dec (n * n)) as [Hfit | Hover];
    [left; apply mul_exact, Hfit | right; exact Hover].
Qed.

(** C4. [sum] is the accumulation of the elements from left to right in
    one pass, started at [0]: the left fold of [+] from [0]; a further
    element at the end is added to the sum of the elements before it,
    and the sum of the empty sequence is [0]. *)
Theorem sum_left_fold (T : Type) (I : Integral T) (numbers : list T) :
  sum numbers = fold_left Integral_add numbers Integral_zero
  /\ (forall x : T, sum (numbers ++ [x]) = Integral_add (sum numbers) x)
  /\ sum (@nil T) = Integral_zero
  /\ sum (@nil int) = 0%Z.
Proof.
  split; [apply sum_loop_fold_left |].
  split; [| split; reflexivity].
  intros x. unfold sum. rewrite sum_loop_app. reflexivity.
Qed.

(** C5. Summation is additive over concatenation: the sum of [A ++ B]
    is the sum of [A] plus the sum of [B], the addition being that of
    [int]; it is their mathematical sum unless that does not fit in an
    [int].  The sum of the empty sequence is [0]. *)
Theorem sum_app (A B : list int) :
  sum (A ++ B) = Int32.add (sum A) (sum B)
  /\ (sum (A ++ B) = (sum A + sum B)%Z \/ ~ Int32.in_range (sum A + sum B))
  /\ sum (@nil int) = 0%Z.
Proof.
  assert (sum (A ++ B) = Int32.add (sum A) (sum B)) as Hadd.
  { rewrite !sum_wrap, Zsum_app. unfold Int32.add.
    rewrite wrap_add_l, wrap_add_r. reflexivity. }
  split; [exact Hadd |].
  split; [| reflexivity].
  destruct (in_range_dec (sum A + sum B)) as [Hfit | Hover];
    [left; rewrite Hadd; apply add_exact, Hfit | right; exact Hover].
Qed.

(** C6. For every list of labels [format_vector] gives an opening
    brace, the labels in input order, each between double quotes and
    joined by a comma and a space, and a closing brace; for a list that
    is not empty this is the labels joined by quote, comma, space, quote
    between a brace with a quote and a quote with a brace.  The empty
    list gives the two braces, and the labels of [1; 2] give the braces
    around the quoted [1], a comma, a space and the quoted [2]. *)
Theorem format_vector_spec (vec : list string) :
  format_vector vec
  = ("{" ++ String.concat ", " ((fun s => dquote ++ s ++ dquote) <$> vec) ++ "}")%string
  /\ (forall s : string,
        format_vector (s :: vec)
        = ("{" ++ dquote
             ++ String.concat (dquote ++ ", " ++ dquote) (s :: vec)
             ++ dquote ++ "}")%string)
  /\ format_vector [] = "{}"%string
  /\ format_vector (to_string <$> [1; 2]%Z)
     = ("{" ++ dquote ++ "1" ++ dquote ++ ", " ++ dquote ++ "2" ++ dquote ++ "}")%string.
Proof.
  split; [apply format_vector_refines |].
  split; [| split; reflexivity].
  intros s. rewrite format_vector_refines. unfold render_spec.
  rewrite concat_quoted, !string_app_assoc. reflexivity.
Qed.

(** C7. [get_even_numbers] is idempotent: filtering a second time
    changes nothing. *)
Theorem get_even_numbers_idempotent (S : list int) :
  get_even_numbers (get_even_numbers S) = get_even_numbers S.
Proof.
  induction S as [| n rest IH]; [reflexivity |].
  rewrite get_even_numbers_cons.
  destruct (decide (is_even n)) as [He | Ho]; [| exact IH].
  rewrite get_even_numbers_cons, IH.
  destruct (decide (is_even n)); [reflexivity | contradiction].
Qed.

(** C8. [main] completes with exit status [0] whatever was written
    before and has no other outcome; its run overflows nowhere.  Every
    operation of the pipeline returns a result on every input, and on
    the empty sequence the results are the empty sequence, the sum [0]
    and the two braces. *)
Theorem main_exit_status :
  (forall out : string, fst (main out) = 0%Z)
  /\ (forall out : string,
        exists text : string, main out = (0%Z, (out ++ text)%string))
  /\ squares_fit (get_even_numbers [1; 2; 3; 4; 5; 6]%Z)
  /\ totals_fit 0 (square_numbers (get_even_numbers [1; 2; 3; 4; 5; 6]%Z))
  /\ (forall S : list int,
        exists (evens squares : list int) (total : int) (shown : string),
          get_even_numbers S = evens
          /\ square_numbers evens = squares
          /\ sum squares = total
          /\ format_vector (to_string <$> squares) = shown
          /\ Forall Int32.in_range squares
          /\ Int32.in_range total)
  /\ get_even_numbers [] = []
  /\ square_numbers [] = []
  /\ sum (@nil int) = 0%Z
  /\ to_string <$> [] = []
  /\ format_vector [] = "{}"%string.
Proof.
  split; [intros out; rewrite main_appends; reflexivity |].
  split; [intros out; rewrite main_appends; eexists; reflexivity |].
  split; [apply main_squares_fit |].
  split; [apply main_totals_fit |].
  split; [| repeat split; reflexivity].
  intros S. do 4 eexists.
  do 4 (split; [reflexivity |]).
  split; [| apply sum_in_range].
  unfold square_numbers. apply Forall_fmap, Forall_forall.
  intros n _. apply mul_in_range.
Qed.

(** C9. An element [n] whose mathematical square does not fit in 32
    bits is squared without error: the result holds, at the position of
    [n], the value of the signed 32-bit range that is congruent to
    [n * n] modulo [2^32], that is [n * n mod 2^32] read as a signed
    32-bit number, and not the mathematical square. *)
Theorem square_numbers_wraps (S : list int) (i : nat) (n : int) :
  S !! i = Some n ->
  ~ Int32.in_range (n * n) ->
  exists r : int,
    square_numbers S !! i = Some r
    /\ Int32.in_range r
    /\ (r mod 2 ^ 32 = (n * n) mod 2 ^ 32)%Z
    /\ r = (if (n * n) mod 2 ^ 32 <? 2 ^ 31
            then (n * n) mod 2 ^ 32
            else (n * n) mod 2 ^ 32 - 2 ^ 32)%Z
    /\ r <> (n * n)%Z.
Proof.
  intros Hn Hover. exists (Int32.mul n n).
  split; [unfold square_numbers; rewrite list_lookup_fmap, Hn; reflexivity |].
  split; [apply mul_in_range |].
  split; [apply wrap_mod_modulus |].
  split; [| apply mul_overflow, Hover].
  unfold Int32.mul. rewrite wrap_mod.
  change Int32.modulus with (2 ^ 32)%Z.
  change Int32.half_modulus with (2 ^ 31)%Z.
  destruct (Z.leb_spec (2 ^ 31) ((n * n) mod 2 ^ 32));
    destruct (Z.ltb_spec ((n * n) mod 2 ^ 32) (2 ^ 31)); lia.
Qed.

(** The square of [65536] is [2^32] and wraps to [0]; that of [46341]
    is the first to leave the range and wraps to a negative number. *)
Lemma square_numbers_wraps_witness :
  [5; 65536; 46341]%Z !! 1%nat = Some 65536%Z
  /\ ~ Int32.in_range (65536 * 65536)
  /\ exists r : int,
       square_numbers [5; 65536; 46341]%Z !! 1%nat = Some r
       /\ Int32.in_range r
       /\ (r mod 2 ^ 32 = (65536 * 65536) mod 2 ^ 32)%Z
       /\ r = (if (65536 * 65536) mod 2 ^ 32 <? 2 ^ 31
               then (65536 * 65536) mod 2 ^ 32
               else (65536 * 65536) mod 2 ^ 32 - 2 ^ 32)%Z
       /\ r <> (65536 * 65536)%Z.
Proof.
  assert (~ Int32.in_range (65536 * 65536)) as Hover.
  { rewrite <- in_rangeb_spec. vm_compute. discriminate. }
  split; [reflexivity |].
  split; [exact Hover |].
  apply (square_numbers_wraps [5; 65536; 46341]%Z 1 65536%Z);
    [reflexivity | exact Hover].
Defined.

(** C10. The filter commutes with squaring: squaring keeps the parity
    of every [int], also when the square wraps around. *)
Theorem get_even_numbers_square_numbers (S : list int) :
  get_even_numbers (square_numbers S) = square_numbers (get_even_numbers S).
Proof.
  induction S as [| n rest IH]; [reflexivity |].
  change (square_numbers (n :: rest))
    with (Int32.mul n n :: square_numbers rest).
  rewrite !get_even_numbers_cons, IH.
  destruct (decide (is_even (Int32.mul n n))) as [Hs | Hs];
    destruct (decide (is_even n)) as [Hn | Hn];
    rewrite is_even_square in Hs; try contradiction; reflexivity.
Qed.

(** ** Further properties of the code *)

Section More_arithmetic.

Local Open Scope Z_scope.

(** Wrap-around keeps the residue modulo 4, which divides [2^32]. *)
Lemma wrap_mod_4 (x : Z) : Int32.wrap x mod 4 = x mod 4.
Proof.
  destruct (wrap_congruent x) as [k ->]. rewrite modulus_val.
  replace (x + k * 4294967296) with (x + (k * 1073741824) * 4) by lia.
  apply Z.mod_add. lia.
Qed.

(** The squares that fit in an [int] are those of the numbers from
    [-46340] to [46340]. *)
Lemma in_range_square (n : Z) :
  Int32.in_range (n * n) <-> -46340 <= n <= 46340.
Proof.
  unfold Int32.in_range, Int32.min_signed, Int32.max_signed.
  rewrite half_modulus_val. split; intros Hn; nia.
Qed.

Lemma Zsum_Permutation (l k : list Z) : Permutation l k -> Zsum l = Zsum k.
Proof.
  unfold Zsum. induction 1; simpl; lia.
Qed.

Lemma Zsum_mod_4 (l : list Z) :
  Forall (fun m => m mod 4 = 0) l -> Zsum l mod 4 = 0.
Proof.
  unfold Zsum. induction 1 as [| m l Hm _ IH]; simpl; [reflexivity |].
  rewrite Z.add_mod, Hm, IH by lia. reflexivity.
Qed.

(** The square of an even number is a multiple of 4, wrapped or not. *)
Lemma even_square_mod_4 (n : int) : is_even n -> Int32.mul n n mod 4 = 0.
Proof.
  rewrite is_even_mod. intros Hn. unfold Int32.mul. rewrite wrap_mod_4.
  assert (n = 2 * (n / 2)) as -> by (Z.div_mod_to_equations; lia).
  replace (2 * (n / 2) * (2 * (n / 2))) with ((n / 2) * (n / 2) * 4) by lia.
  apply Z.mod_mul. lia.
Qed.

Lemma squared_evens_mod_4 (S : list int) :
  Forall (fun m => m mod 4 = 0) (square_numbers (get_even_numbers S)).
Proof.
  unfold square_numbers. apply Forall_fmap, Forall_forall. intros n Hn.
  unfold get_even_numbers in Hn. apply list_elem_of_filter in Hn as [He _].
  simpl. apply even_square_mod_4, He.
Qed.

End More_arithmetic.

(** X1. The sequences [get_even_numbers] returns unchanged are exactly
    those whose elements are all even; they are also exactly those whose
    length it keeps. *)
Theorem get_even_numbers_fixed_point (S : list int) :
  (get_even_numbers S = S <-> Forall (fun n => (n mod 2 = 0)%Z) S)
  /\ (length (get_even_numbers S) = length S
      <-> Forall (fun n => (n mod 2 = 0)%Z) S).
Proof.
  assert (Forall (fun n => (n mod 2 = 0)%Z) S -> get_even_numbers S = S) as Hfix.
  { induction 1 as [| n rest Hn _ IH]; [reflexivity |].
    rewrite get_even_numbers_cons, IH.
    destruct (decide (is_even n)) as [_ | Ho]; [reflexivity |].
    exfalso. apply Ho, is_even_mod, Hn. }
  assert (length (get_even_numbers S) = length S ->
          Forall (fun n => (n mod 2 = 0)%Z) S) as Hlen.
  { intros Heq. apply Forall_forall. intros n Hn.
    destruct (decide (is_even n)) as [He | Ho]; [apply is_even_mod, He |].
    pose proof (length_filter_lt is_even S n Hn Ho) as Hlt.
    unfold get_even_numbers in Heq. lia. }
  split; split; intros Hyp.
  - apply Hlen. rewrite Hyp. reflexivity.
  - apply Hfix, Hyp.
  - apply Hlen, Hyp.
  - rewrite Hfix by exact Hyp. reflexivity.
Qed.

(** X2. [get_even_numbers] returns the empty sequence exactly when no
    element of the input is even. *)
Theorem get_even_numbers_empty (S : list int) :
  get_even_numbers S = [] <-> Forall (fun n => (n mod 2 <> 0)%Z) S.
Proof.
  induction S as [| n rest IH].
  - split; [constructor | reflexivity].
  - rewrite get_even_numbers_cons, Forall_cons, <- IH.
    destruct (decide (is_even n)) as [He | Ho].
    + rewrite is_even_mod in He. split; [discriminate | tauto].
    + rewrite is_even_mod in Ho. tauto.
Qed.

(** X3. The filter and the squaring work element by element: on a
    concatenation each gives the concatenation of its results, on a
    reversed sequence the reversed result, and the filter never
    lengthens a sequence. *)
Theorem pipeline_stages_app (A B : list int) :
  get_even_numbers (A ++ B) = (get_even_numbers A ++ get_even_numbers B)%list
  /\ square_numbers (A ++ B) = (square_numbers A ++ square_numbers B)%list
  /\ get_even_numbers (reverse A) = reverse (get_even_numbers A)
  /\ square_numbers (reverse A) = reverse (square_numbers A)
  /\ (length (get_even_numbers A) <= length A)%nat.
Proof.
  unfold get_even_numbers, square_numbers.
  split; [apply filter_app |].
  split; [apply fmap_app |].
  split; [apply filter_reverse |].
  split; [apply fmap_reverse | apply length_filter].
Qed.

(** X4. [square_numbers] returns the mathematical squares exactly for
    the sequences whose elements all lie between [-46340] and [46340];
    the squares are then between [0] and [2147395600]. *)
Theorem square_numbers_exact_iff (S : list int) :
  (square_numbers S = (fun n => (n * n)%Z) <$> S
   <-> Forall (fun n => (-46340 <= n <= 46340)%Z) S)
  /\ (Forall (fun n => (-46340 <= n <= 46340)%Z) S ->
      Forall (fun m => (0 <= m <= 2147395600)%Z) (square_numbers S)).
Proof.
  assert (Forall (fun n => (-46340 <= n <= 46340)%Z) S -> squares_fit S) as Hfit.
  { intros Hall. eapply Forall_impl; [exact Hall |].
    intros n Hn. apply in_range_square, Hn. }
  split; [split |].
  - clear Hfit. induction S as [| n rest IH]; intros Heq; [constructor |].
    rewrite !fmap_cons in Heq. injection Heq as Hn Hrest.
    constructor; [| apply IH, Hrest].
    apply in_range_square. simpl in Hn. rewrite <- Hn. apply mul_in_range.
  - intros Hall. apply square_numbers_exact, Hfit, Hall.
  - intros Hall. rewrite square_numbers_exact by (apply Hfit, Hall).
    apply Forall_fmap. eapply Forall_impl; [exact Hall |].
    intros n Hn. simpl in *. nia.
Qed.

Lemma square_numbers_exact_iff_witness :
  Forall (fun n => (-46340 <= n <= 46340)%Z) [46340; -46340; 7]%Z
  /\ Forall (fun m => (0 <= m <= 2147395600)%Z)
            (square_numbers [46340; -46340; 7]%Z).
Proof.
  assert (Forall (fun n => (-46340 <= n <= 46340)%Z) [46340; -46340; 7]%Z)
    as Hall by (repeat constructor; lia).
  split; [exact Hall |].
  apply (proj2 (square_numbers_exact_iff [46340; -46340; 7]%Z)), Hall.
Defined.

(** X5. Squaring forgets the sign: two sequences that agree position by
    position up to sign have the same squares. *)
Theorem square_numbers_sign (A B : list int) :
  Forall2 (fun a b => a = b \/ a = (- b)%Z) A B ->
  square_numbers A = square_numbers B.
Proof.
  unfold square_numbers.
  induction 1 as [| a b A B Hab _ IH]; [reflexivity |].
  rewrite !fmap_cons, IH. f_equal.
  destruct Hab as [-> | ->]; [reflexivity |].
  unfold Int32.mul. f_equal. lia.
Qed.

Lemma square_numbers_sign_witness :
  square_numbers [3; -4; 46341]%Z = square_numbers [-3; -4; -46341]%Z.
Proof.
  apply (square_numbers_sign [3; -4; 46341]%Z [-3; -4; -46341]%Z).
  repeat constructor; lia.
Defined.

(** X6. [sum] returns the mathematical sum of the elements modulo
    [2^32], read as a signed 32-bit number; when the mathematical sum
    fits in an [int] it is returned as it is, also when a partial sum
    on the way did not fit. *)
Theorem sum_modular (numbers : list int) :
  sum numbers = Int32.wrap (Zsum numbers)
  /\ Int32.in_range (sum numbers)
  /\ (Int32.in_range (Zsum numbers) -> sum numbers = Zsum numbers).
Proof.
  split; [apply sum_wrap |].
  split; [apply sum_in_range |].
  intros Hfit. rewrite sum_wrap. apply wrap_id, Hfit.
Qed.

Lemma sum_modular_witness :
  Int32.in_range (Zsum [2147483647; 1; -5]%Z)
  /\ ~ Int32.in_range (2147483647 + 1)
  /\ sum [2147483647; 1; -5]%Z = 2147483643%Z.
Proof.
  assert (Int32.in_range (Zsum [2147483647; 1; -5]%Z)) as Hfit
    by (apply in_rangeb_spec; reflexivity).
  split; [exact Hfit |].
  split; [rewrite <- in_rangeb_spec; vm_compute; discriminate |].
  destruct (sum_modular [2147483647; 1; -5]%Z) as (_ & _ & Hexact).
  rewrite Hexact by exact Hfit. reflexivity.
Defined.

(** X7. The order of the elements does not change the sum: a
    permutation of a sequence has the same [sum], overflow included. *)
Theorem sum_permutation (A B : list int) :
  Permutation A B -> sum A = sum B.
Proof.
  intros Hperm. rewrite !sum_wrap, (Zsum_Permutation A B Hperm). reflexivity.
Qed.

Lemma sum_permutation_witness :
  sum [2147483647; 1; -5]%Z = sum [-5; 2147483647; 1]%Z.
Proof.
  apply (sum_permutation [2147483647; 1; -5]%Z [-5; 2147483647; 1]%Z).
  change [2147483647; 1; -5]%Z with ([2147483647; 1]%Z ++ [-5]%Z)%list.
  symmetry. apply Permutation_cons_append.
Defined.

(** X8. Whatever the input, every squared even number and the total of
    the pipeline, the sum of the squares of the even elements, are
    multiples of 4. *)
Theorem pipeline_total_mod_4 (S : list int) :
  Forall (fun m => (m mod 4 = 0)%Z) (square_numbers (get_even_numbers S))
  /\ (sum (square_numbers (get_even_numbers S)) mod 4 = 0)%Z.
Proof.
  split; [apply squared_evens_mod_4 |].
  rewrite sum_wrap, wrap_mod_4.
  apply Zsum_mod_4, squared_evens_mod_4.
Qed.

(** X9. The total of the pipeline does not depend on the order of the
    input, and on a concatenation it is the [int] sum of the totals of
    the parts. *)
Theorem pipeline_total_compositional (A B : list int) :
  sum (square_numbers (get_even_numbers (A ++ B)))
  = Int32.add (sum (square_numbers (get_even_numbers A)))
              (sum (square_numbers (get_even_numbers B)))
  /\ (Permutation A B ->
      sum (square_numbers (get_even_numbers A))
      = sum (square_numbers (get_even_numbers B))).
Proof.
  split.
  - unfold get_even_numbers, square_numbers.
    rewrite filter_app, fmap_app, !sum_wrap, Zsum_app. unfold Int32.add.
    rewrite wrap_add_l, wrap_add_r. reflexivity.
  - intros Hperm. rewrite !sum_wrap. f_equal. apply Zsum_Permutation.
    unfold get_even_numbers, square_numbers.
    apply fmap_Permutation, filter_Permutation, Hperm.
Qed.

Lemma pipeline_total_compositional_witness :
  sum (square_numbers (get_even_numbers [1; 2; 3; 4]%Z))
  = sum (square_numbers (get_even_numbers [4; 1; 2; 3]%Z)).
Proof.
  apply (proj2 (pipeline_total_compositional [1; 2; 3; 4]%Z [4; 1; 2; 3]%Z)).
  change [1; 2; 3; 4]%Z with ([1; 2; 3]%Z ++ [4]%Z)%list.
  symmetry. apply Permutation_cons_append.
Defined.

Section Reader.

Local Open Scope string_scope.

Lemma string_app_nil_r (a : string) : a ++ EmptyString = a.
Proof.
  induction a as [| ch a IH]; simpl; [reflexivity | rewrite IH; reflexivity].
Qed.

Lemma string_length_app (a b : string) :
  String.length (a ++ b) = (String.length a + String.length b)%nat.
Proof.
  induction a as [| ch a IH]; simpl; [reflexivity | rewrite IH; reflexivity].
Qed.

Lemma concat_tail_items (s : string) (vec : list string) :
  String.concat ", " (quoted <$> (s :: vec)) = quoted s ++ tail_items vec.
Proof.
  revert s. induction vec as [| t rest IH]; intros s.
  - simpl. rewrite string_app_nil_r. reflexivity.
  - rewrite fmap_cons, fmap_cons, concat_cons_cons, <- fmap_cons, IH.
    reflexivity.
Qed.

Lemma format_vector_cons (s : string) (vec : list string) :
  format_vector (s :: vec) = "{" ++ quoted s ++ tail_items vec ++ "}".
Proof.
  rewrite format_vector_refines. unfold render_spec.
  rewrite concat_tail_items, !string_app_assoc. reflexivity.
Qed.

Lemma quote_free_app (a b : string) :
  quote_free (a ++ b) = quote_free a && quote_free b.
Proof.
  induction a as [| ch a IH]; simpl; [reflexivity |].
  rewrite IH, andb_assoc. reflexivity.
Qed.

(** Inside a label the reader collects the characters up to the
    closing quote. *)
Lemma read_label (s cur rest : string) (acc : list string) :
  quote_free s = true ->
  read_from (In_label cur) acc (s ++ dquote ++ rest)
  = read_from After_label (acc ++ [(cur ++ s)%string])%list rest.
Proof.
  revert cur. induction s as [| c s IH]; intros cur Hfree.
  - simpl. rewrite string_app_nil_r. reflexivity.
  - simpl in Hfree. apply andb_true_iff in Hfree as [Hc Hs].
    apply negb_true_iff in Hc. simpl. rewrite Hc, IH by exact Hs.
    rewrite string_app_assoc. reflexivity.
Qed.

Lemma read_separator (acc : list string) (text : string) :
  read_from After_label acc (", " ++ dquote ++ text)
  = read_from (In_label EmptyString) acc text.
Proof. reflexivity. Qed.

Lemma read_open (text : string) :
  read_vector ("{" ++ dquote ++ text)
  = read_from (In_label EmptyString) [] text.
Proof. reflexivity. Qed.

Lemma read_tail_items (vec acc : list string) :
  Forall (fun s => quote_free s = true) vec ->
  read_from After_label acc (tail_items vec ++ "}") = Some (acc ++ vec)%list.
Proof.
  intros Hfree. revert acc.
  induction Hfree as [| s rest Hs _ IH]; intros acc.
  - simpl. rewrite app_nil_r. reflexivity.
  - change (tail_items (s :: rest)) with (", " ++ quoted s ++ tail_items rest).
    unfold quoted. rewrite !string_app_assoc.
    rewrite read_separator, read_label by exact Hs.
    rewrite IH, <- app_assoc. reflexivity.
Qed.

(** The reader gives back the labels of a rendering when no label has
    a double quote. *)
Lemma read_format_vector (vec : list string) :
  Forall (fun s => quote_free s = true) vec ->
  read_vector (format_vector vec) = Some vec.
Proof.
  intros Hfree. destruct Hfree as [| s rest Hs Hrest]; [reflexivity |].
  rewrite format_vector_cons. unfold quoted. rewrite !string_app_assoc.
  rewrite read_open, read_label by exact Hs. apply read_tail_items, Hrest.
Qed.

Lemma quote_free_uint (d : Decimal.uint) :
  quote_free (NilEmpty.string_of_uint d) = true.
Proof. induction d; simpl; try rewrite IHd; reflexivity. Qed.

(** A decimal numeral has digits and at most a sign, no quote. *)
Lemma quote_free_to_string (n : int) : quote_free (to_string n) = true.
Proof.
  unfold to_string, NilZero.string_of_int, NilZero.string_of_uint.
  destruct (Z.to_int n) as [d | d]; destruct d;
    try reflexivity; simpl; apply quote_free_uint.
Qed.

(** A numeral read back is the number that was written. *)
Lemma of_string_to_string (n : int) : of_string (to_string n) = Some n.
Proof.
  unfold of_string, to_string. rewrite NilZero.isi.
  - simpl. rewrite DecimalZ.of_to. reflexivity.
  - destruct n; simpl; try discriminate.
    intros [= Hp]. exact (Unsigned.to_uint_nonnil _ Hp).
  - destruct n; simpl; try discriminate.
    intros [= Hp]. exact (Unsigned.to_uint_nonnil _ Hp).
Qed.

Lemma to_string_inj (a b : int) : to_string a = to_string b -> a = b.
Proof.
  intros Heq. pose proof (of_string_to_string a) as Ha.
  rewrite Heq, of_string_to_string in Ha. congruence.
Qed.

End Reader.

(** X10. The rendering of [n] labels has the two braces, the characters
    of the labels, two quotes for each label and the two characters of
    a separator between neighbours; of the empty list it has the two
    braces only. *)
Theorem format_vector_length (vec : list string) :
  String.length (format_vector vec)
  = (2 + labels_length vec + 2 * length vec + 2 * (length vec - 1))%nat.
Proof.
  destruct vec as [| s rest]; [reflexivity |].
  rewrite format_vector_cons.
  assert (String.length (tail_items rest)
          = (labels_length rest + 4 * length rest)%nat) as Htail.
  { induction rest as [| t rest IH]; [reflexivity |].
    change (tail_items (t :: rest)) with (", " ++ quoted t ++ tail_items rest)%string.
    unfold quoted. rewrite !string_length_app, IH. simpl. lia. }
  unfold quoted. rewrite !string_length_app, Htail. simpl. lia.
Qed.

(** X11. Quotes inside a label are not escaped, so the rendering does
    not determine the labels: one label holding a quote, a comma, a
    space and a quote is rendered like the two labels around them. *)
Theorem format_vector_ambiguous (a b : string) (rest : list string) :
  format_vector ((a ++ dquote ++ ", " ++ dquote ++ b)%string :: rest)
  = format_vector (a :: b :: rest)
  /\ (a ++ dquote ++ ", " ++ dquote ++ b)%string :: rest <> a :: b :: rest.
Proof.
  split.
  - rewrite !format_vector_cons.
    change (tail_items (b :: rest)) with (", " ++ quoted b ++ tail_items rest)%string.
    unfold quoted. rewrite !string_app_assoc. reflexivity.
  - intros Heq. apply (f_equal length) in Heq. simpl in Heq. lia.
Qed.

(** X12. When no label holds a double quote the rendering determines
    the labels: reading it back gives the labels, and two such lists
    with the same rendering are equal. *)
Theorem format_vector_read_back (A B : list string) :
  Forall (fun s => quote_free s = true) A ->
  read_vector (format_vector A) = Some A
  /\ (Forall (fun s => quote_free s = true) B ->
      format_vector A = format_vector B -> A = B).
Proof.
  intros HA. split; [apply read_format_vector, HA |].
  intros HB Heq. pose proof (read_format_vector A HA) as Hread.
  rewrite Heq, (read_format_vector B HB) in Hread. congruence.
Qed.

Lemma format_vector_read_back_witness :
  read_vector (format_vector ["a, b"; "{}"; ""; "-12"]%string)
  = Some ["a, b"; "{}"; ""; "-12"]%string.
Proof.
  apply (format_vector_read_back ["a, b"; "{}"; ""; "-12"]%string []).
  repeat constructor.
Defined.

(** X13. The line [main] prints for a sequence of numbers determines
    the sequence: the labels of numbers hold no quote, reading the
    rendering back gives them, and two sequences with the same
    rendering are equal. *)
Theorem format_vector_numbers_inj (A B : list int) :
  read_vector (format_vector (to_string <$> A)) = Some (to_string <$> A)
  /\ mapM of_string (to_string <$> A) = Some A
  /\ (format_vector (to_string <$> A) = format_vector (to_string <$> B) ->
      A = B).
Proof.
  assert (forall S : list int,
            Forall (fun s => quote_free s = true) (to_string <$> S)) as Hfree.
  { intros S. apply Forall_fmap, Forall_forall. intros n _.
    apply quote_free_to_string. }
  assert (forall S : list int, mapM of_string (to_string <$> S) = Some S)
    as Hback.
  { intros S. apply mapM_Some, Forall2_fmap_l, Forall_Forall2_diag, Forall_forall.
    intros n _. apply of_string_to_string. }
  split; [apply read_format_vector, Hfree |].
  split; [apply Hback |].
  intros Heq.
  assert (to_string <$> A = to_string <$> B) as Hlabels.
  { pose proof (read_format_vector _ (Hfree A)) as Hread.
    rewrite Heq, (read_format_vector _ (Hfree B)) in Hread. congruence. }
  pose proof (Hback A) as HA. rewrite Hlabels, Hback in HA. congruence.
Qed.

Lemma format_vector_numbers_inj_witness :
  [4; -16; 36]%Z = [4; -16; 36]%Z.
Proof.
  apply (proj2 (proj2 (format_vector_numbers_inj [4; -16; 36]%Z [4; -16; 36]%Z))).
  reflexivity.
Defined.

Section No_overflow.

Local Open Scope Z_scope.

(** A bound on the elements and on their number that keeps every
    partial sum in range. *)
Lemma totals_fit_bound (M : Z) (numbers : list int) (total : Z) :
  Forall (fun n => - M <= n <= M) numbers ->
  Z.abs total + Z.of_nat (length numbers) * M <= Int32.max_signed ->
  totals_fit total numbers.
Proof.
  intros Hall. revert total.
  induction Hall as [| n rest Hn _ IH]; intros total Hbound; [exact I |].
  simpl length in Hbound. rewrite Nat2Z.inj_succ in Hbound.
  assert (0 <= Z.of_nat (length rest) * M)
    by (apply Z.mul_nonneg_nonneg; lia).
  simpl. split.
  - unfold Int32.in_range, Int32.min_signed, Int32.max_signed in *.
    rewrite half_modulus_val in *. lia.
  - apply IH. lia.
Qed.

Lemma Zsum_bound (M : Z) (numbers : list Z) :
  Forall (fun n => - M <= n <= M) numbers ->
  - (Z.of_nat (length numbers) * M) <= Zsum numbers
    <= Z.of_nat (length numbers) * M.
Proof.
  unfold Zsum. induction 1 as [| n rest Hn _ IH]; [simpl; lia |].
  simpl length. rewrite Nat2Z.inj_succ. simpl foldr. lia.
Qed.

End No_overflow.

(** X14. When the elements lie between [-M] and [M] and their number
    times [M] is at most [2147483647], no partial sum of [sum] leaves
    the range of [int], and [sum] returns the mathematical sum, which
    lies between minus that product and that product. *)
Theorem sum_no_overflow (M : Z) (numbers : list int) :
  Forall (fun n => (- M <= n <= M)%Z) numbers ->
  (Z.of_nat (length numbers) * M <= 2147483647)%Z ->
  totals_fit 0 numbers
  /\ sum numbers = Zsum numbers
  /\ (- (Z.of_nat (length numbers) * M) <= sum numbers
      <= Z.of_nat (length numbers) * M)%Z.
Proof.
  intros Hall Hbound.
  assert (totals_fit 0 numbers) as Hfit.
  { apply (totals_fit_bound M); [exact Hall |].
    unfold Int32.max_signed. rewrite half_modulus_val. simpl Z.abs. lia. }
  split; [exact Hfit |].
  rewrite (sum_exact numbers Hfit).
  split; [reflexivity | apply Zsum_bound, Hall].
Qed.

Lemma sum_no_overflow_witness :
  sum [1000; -2000; 3000; 1500]%Z = Zsum [1000; -2000; 3000; 1500]%Z.
Proof.
  apply (sum_no_overflow 3000 [1000; -2000; 3000; 1500]%Z).
  - repeat constructor; lia.
  - simpl. lia.
Defined.

(** X15. The whole pipeline without overflow: when the elements lie
    between [-B] and [B] and their number times [B * B] is at most
    [2147483647], no square and no partial sum leaves the range of
    [int], and the total is the mathematical sum of the squares of the
    even elements. *)
Theorem pipeline_exact (B : Z) (S : list int) :
  Forall (fun n => (- B <= n <= B)%Z) S ->
  (Z.of_nat (length S) * (B * B) <= 2147483647)%Z ->
  squares_fit (get_even_numbers S)
  /\ totals_fit 0 (square_numbers (get_even_numbers S))
  /\ sum (square_numbers (get_even_numbers S))
     = Zsum ((fun n => (n * n)%Z) <$> filterEven_spec S).
Proof.
  intros Hall Hbound.
  assert (Forall (fun n => (- B <= n <= B)%Z) (get_even_numbers S)) as Hev.
  { apply Forall_forall. intros n Hn.
    apply elem_of_get_even_numbers in Hn as [Hn _].
    rewrite Forall_forall in Hall. apply Hall, Hn. }
  assert (length (get_even_numbers S) <= length S)%nat as Hlen
    by apply length_filter.
  assert (Forall (fun n => (0 <= n * n <= B * B)%Z) (get_even_numbers S)) as Hsq.
  { eapply Forall_impl; [exact Hev |]. intros n Hn. simpl in Hn. nia. }
  assert (squares_fit (get_even_numbers S)) as Hfit.
  { unfold squares_fit. apply Forall_forall. intros n Hn.
    rewrite Forall_forall in Hsq. pose proof (Hsq n Hn) as Hnn. simpl in Hnn.
    destruct S as [| n0 S0]; [inversion Hn |].
    simpl length in Hbound. rewrite Nat2Z.inj_succ in Hbound.
    unfold Int32.in_range, Int32.min_signed, Int32.max_signed.
    rewrite half_modulus_val. nia. }
  assert (square_numbers (get_even_numbers S)
          = (fun n => (n * n)%Z) <$> get_even_numbers S) as Hexact
    by (apply square_numbers_exact, Hfit).
  assert (totals_fit 0 (square_numbers (get_even_numbers S))) as Htot.
  { apply (totals_fit_bound (B * B)).
    - rewrite Hexact. apply Forall_fmap.
      eapply Forall_impl; [exact Hsq |]. intros n Hn. simpl in *. lia.
    - unfold square_numbers. rewrite length_fmap.
      unfold Int32.max_signed. rewrite half_modulus_val. simpl Z.abs.
      pose proof (Z.square_nonneg B).
      assert (Z.of_nat (length (get_even_numbers S)) * (B * B)
              <= Z.of_nat (length S) * (B * B))%Z
        by (apply Z.mul_le_mono_nonneg_r; lia).
      lia. }
  split; [exact Hfit |].
  split; [exact Htot |].
  rewrite (sum_exact _ Htot), Hexact, get_even_numbers_refines. reflexivity.
Qed.

Lemma pipeline_exact_witness :
  sum (square_numbers (get_even_numbers [100; -7; -200; 31; 0]%Z)) = 50000%Z.
Proof.
  destruct (pipeline_exact 200 [100; -7; -200; 31; 0]%Z) as (_ & _ & Hsum).
  - repeat constructor; lia.
  - simpl. lia.
  - rewrite Hsum. reflexivity.
Defined.

(** X16. The filter keeps what holds of the order of the input: a
    sequence without duplicates stays without duplicates, and a
    sequence sorted for a relation stays sorted. *)
Theorem get_even_numbers_keeps_order (R : Z -> Z -> Prop) (S : list int) :
  (NoDup S -> NoDup (get_even_numbers S))
  /\ (StronglySorted R S -> StronglySorted R (get_even_numbers S)).
Proof.
  split; [apply NoDup_filter |].
  induction 1 as [| n rest Hsorted IH Hn]; [constructor |].
  rewrite get_even_numbers_cons.
  destruct (decide (is_even n)); [| exact IH].
  constructor; [exact IH |].
  apply Forall_forall. intros m Hm.
  apply elem_of_get_even_numbers in Hm as [Hm _].
  rewrite Forall_forall in Hn. apply Hn, Hm.
Qed.

Lemma get_even_numbers_keeps_order_witness :
  NoDup (get_even_numbers [-4; -1; 2; 3; 8]%Z)
  /\ StronglySorted Z.le (get_even_numbers [-4; -1; 2; 3; 8]%Z).
Proof.
  destruct (get_even_numbers_keeps_order Z.le [-4; -1; 2; 3; 8]%Z)
    as [Hnodup Hsorted].
  split.
  - apply Hnodup. apply NoDup_ListNoDup.
    repeat constructor; simpl; intuition lia.
  - apply Hsorted. repeat constructor; lia.
Defined.
